(** * riak-go-client, node.go: the per-node connection pool and its lifecycle

    A shallow embedding of [Node] (construction, warm fill, checkout,
    checkin, shutdown drain, state-gated dispatch) and the properties of the
    pool that the specification states about it.

    The embedding is sequential: one goroutine runs one operation at a time,
    so [stateMtx] and [connMtx] are always free when they are asked for and
    are not represented.  Everything else follows node.go line by line. *)

From stdpp Require Import base numbers list strings.
From Stdlib Require Import DecimalString.

Open Scope Z_scope.

(** ** Data model *)

(** [type state byte] with its [iota] constants, in declaration order. *)
Inductive state : Type :=
  | ERROR
  | CREATED
  | RUNNING
  | HEALTH_CHECKING
  | SHUTTING_DOWN
  | SHUTDOWN.

(** The byte value of a state constant ([ERROR] is [iota = 0]). *)
Definition state_byte (s : state) : Z :=
  match s with
  | ERROR => 0
  | CREATED => 1
  | RUNNING => 2
  | HEALTH_CHECKING => 3
  | SHUTTING_DOWN => 4
  | SHUTDOWN => 5
  end.

(** [n.state == s] and [n.state < s] on the underlying bytes. *)
Definition state_eqb (a b : state) : bool := state_byte a =? state_byte b.
Definition state_ltb (a b : state) : bool := state_byte a <? state_byte b.

(** [func (v state) String()]: the [switch] has no case for [ERROR], for
    which [rv] keeps its zero value, the empty string. *)
Definition state_String (v : state) : string :=
  match v with
  | CREATED => "CREATED"
  | RUNNING => "RUNNING"
  | HEALTH_CHECKING => "HEALTH_CHECKING"
  | SHUTTING_DOWN => "SHUTTING_DOWN"
  | SHUTDOWN => "SHUTDOWN"
  | ERROR => ""
  end.

(** A [uint16] is a [Z] in [0, 65536); [++] and [--] wrap around. *)
Definition wrap16 (z : Z) : Z := z mod 65536.

(** A [*connection]: [None] is the nil pointer, [Some c] points to the
    connection object [c].  The connection type itself is an external
    collaborator; the node only calls its methods. *)
Abbreviation conn := nat (only parsing).
Abbreviation connptr := (option conn) (only parsing).

(** A [Command] is opaque to the node apart from its [Name()]. *)
Record Command : Type := { Name : string }.

(** A [CommandBuilder] builds a fresh command on every [Build()]. *)
Record CommandBuilder : Type := { Build : Command }.

(** A resolved [*net.TCPAddr], kept as the text that [%v] prints for it. *)
Definition TCPAddr : Type := string.

(** Go's [error] values that reach the node.  [fmt.Errorf] in [stateCheck]
    builds the illegal-state error from the allow-list and the current
    state; the others come from collaborators and are opaque. *)
Inductive error : Type :=
  | IllegalState (allowed : list state) (current : state)
  | External (what : string).

Record NodeOptions : Type := {
  RemoteAddress : string;
  MinConnections : Z;
  MaxConnections : Z;
  IdleTimeout : Z;
  ConnectTimeout : Z;
  RequestTimeout : Z;
  HealthCheckBuilder : option CommandBuilder
}.

(** The [Node] struct without its two mutexes. *)
Record Node : Type := {
  addr : TCPAddr;
  minConnections : Z;
  maxConnections : Z;
  idleTimeout : Z;
  connectTimeout : Z;
  requestTimeout : Z;
  healthCheckBuilder : option CommandBuilder;
  available : list connptr;
  currentNumConnections : Z;
  nstate : state
}.

Record connectionOptions : Type := {
  remoteAddress : TCPAddr;
  co_connectTimeout : Z;
  co_requestTimeout : Z;
  healthCheck : option Command
}.

(** ** What lies outside node.go *)

(** The package constants [defaultRemoteAddress], [defaultMinConnections],
    ... are declared in another file of the package; they are taken as
    parameters. *)
Record Defaults : Type := {
  defaultRemoteAddress : string;
  defaultMinConnections : Z;
  defaultMaxConnections : Z;
  defaultIdleTimeout : Z;
  defaultConnectTimeout : Z;
  defaultRequestTimeout : Z
}.

(** Every call that the node makes on a collaborator, in program order. *)
Inductive call : Type :=
  | CallBuild
  | CallNewConnection (o : connectionOptions)
  | CallConnect (c : conn)
  | CallExecute (c : conn) (cmd : Command)
  | CallNotInFlight (c : conn)
  | CallResetBuffer (c : conn)
  | CallClose (c : conn).

(** The collaborators' answers.  Every answer may depend on the calls made
    so far, so a dial or a close may succeed once and fail later.
    [newConnection] answers with a connection or with an error. *)
Record Collaborators : Type := {
  resolveTCPAddr : string -> TCPAddr + error;
  newConnection : list call -> connectionOptions -> conn + error;
  conn_connect : list call -> conn -> option error;
  conn_execute : list call -> conn -> Command -> option error;
  conn_close : list call -> conn -> option error
}.

(** ** Construction *)

Section Construction.

Variable K : Defaults.
Variable W : Collaborators.

(** [var defaultNodeOptions = &NodeOptions{...}]; [HealthCheckBuilder] is
    left at its zero value. *)
Definition defaultNodeOptions : NodeOptions :=
  {| RemoteAddress := defaultRemoteAddress K;
     MinConnections := defaultMinConnections K;
     MaxConnections := defaultMaxConnections K;
     IdleTimeout := defaultIdleTimeout K;
     ConnectTimeout := defaultConnectTimeout K;
     RequestTimeout := defaultRequestTimeout K;
     HealthCheckBuilder := None |}.

(** The seven [if] statements that open [NewNode]: a nil [options] is
    replaced by the defaults, and every zero field by its default. *)
Definition fill_defaults (options : option NodeOptions) : NodeOptions :=
  let o := match options with
           | None => defaultNodeOptions
           | Some o => o
           end in
  {| RemoteAddress :=
       if String.eqb (RemoteAddress o) "" then defaultRemoteAddress K
       else RemoteAddress o;
     MinConnections :=
       if MinConnections o =? 0 then defaultMinConnections K
       else MinConnections o;
     MaxConnections :=
       if MaxConnections o =? 0 then defaultMaxConnections K
       else MaxConnections o;
     IdleTimeout :=
       if IdleTimeout o =? 0 then defaultIdleTimeout K else IdleTimeout o;
     ConnectTimeout :=
       if ConnectTimeout o =? 0 then defaultConnectTimeout K
       else ConnectTimeout o;
     RequestTimeout :=
       if RequestTimeout o =? 0 then defaultRequestTimeout K
       else RequestTimeout o;
     HealthCheckBuilder := HealthCheckBuilder o |}.

(** [NewNode]: [make([]*connection, options.MinConnections)] is a slice of
    LENGTH [MinConnections] whose elements are all nil, and
    [currentNumConnections] keeps its zero value.  (The defaults are also
    written back into the caller's [options]; only the returned node is
    kept here.) *)
Definition NewNode (options : option NodeOptions) : Node + error :=
  let o := fill_defaults options in
  match resolveTCPAddr W (RemoteAddress o) with
  | inl resolvedAddress =>
      inl {| addr := resolvedAddress;
             minConnections := MinConnections o;
             maxConnections := MaxConnections o;
             idleTimeout := IdleTimeout o;
             connectTimeout := ConnectTimeout o;
             requestTimeout := RequestTimeout o;
             healthCheckBuilder := HealthCheckBuilder o;
             available := replicate (Z.to_nat (MinConnections o)) None;
             currentNumConnections := 0;
             nstate := CREATED |}
  | inr err => inr err
  end.

End Construction.

(** ** Running an operation

    An operation runs on a [World]: the node it mutates and the log of the
    collaborator calls made so far.  It either returns a value or panics;
    in both cases the world it leaves behind is known (a panic unwinds
    through the deferred unlocks and leaves the fields as they were when it
    was raised). *)

Record World : Type := { node : Node; calls : list call }.

Inductive outcome (A : Type) : Type :=
  | Returns (a : A)
  | Panics (msg : string).
Arguments Returns {A} a.
Arguments Panics {A} msg.

Definition Go (A : Type) : Type := World -> outcome A * World.

Definition ret {A : Type} (a : A) : Go A := fun w => (Returns a, w).

Definition panic {A : Type} (msg : string) : Go A := fun w => (Panics msg, w).

Definition bind {A B : Type} (m : Go A) (k : A -> Go B) : Go B :=
  fun w =>
    match m w with
    | (Returns a, w') => k a w'
    | (Panics msg, w') => (Panics msg, w')
    end.

Notation "'let*' x := m 'in' k" := (bind m (fun x => k))
  (at level 10, x name, m at level 100, k at level 200, only parsing).
Notation "'run' m 'in' k" := (bind m (fun _ => k))
  (at level 10, m at level 100, k at level 200, only parsing).

(** Reading and writing the fields of [n]. *)
Definition get {A : Type} (field : Node -> A) : Go A :=
  fun w => (Returns (field (node w)), w).

Definition update (f : Node -> Node) : Go unit :=
  fun w => (Returns tt, {| node := f (node w); calls := calls w |}).

Definition with_available (l : list connptr) (n : Node) : Node :=
  {| addr := addr n;
     minConnections := minConnections n;
     maxConnections := maxConnections n;
     idleTimeout := idleTimeout n;
     connectTimeout := connectTimeout n;
     requestTimeout := requestTimeout n;
     healthCheckBuilder := healthCheckBuilder n;
     available := l;
     currentNumConnections := currentNumConnections n;
     nstate := nstate n |}.

Definition with_count (k : Z) (n : Node) : Node :=
  {| addr := addr n;
     minConnections := minConnections n;
     maxConnections := maxConnections n;
     idleTimeout := idleTimeout n;
     connectTimeout := connectTimeout n;
     requestTimeout := requestTimeout n;
     healthCheckBuilder := healthCheckBuilder n;
     available := available n;
     currentNumConnections := k;
     nstate := nstate n |}.

Definition with_state (s : state) (n : Node) : Node :=
  {| addr := addr n;
     minConnections := minConnections n;
     maxConnections := maxConnections n;
     idleTimeout := idleTimeout n;
     connectTimeout := connectTimeout n;
     requestTimeout := requestTimeout n;
     healthCheckBuilder := healthCheckBuilder n;
     available := available n;
     currentNumConnections := currentNumConnections n;
     nstate := s |}.

(** Logging a collaborator call. *)
Definition record (c : call) : Go unit :=
  fun w => (Returns tt, {| node := node w; calls := calls w ++ [c] |}).

(** [%d] of an unsigned integer: its decimal digits. *)
Definition decimal (z : Z) : string := NilZero.string_of_int (Z.to_int z).

(** [func (n *Node) String()]: [fmt.Sprintf("%v|%d", n.addr,
    n.currentNumConnections)]. *)
Definition Node_String (n : Node) : string :=
  addr n +:+ "|" +:+ decimal (currentNumConnections n).

(** The value that [shutdown] panics with:
    [fmt.Sprintf("[Node] (%v); Connections still in use.", n)], where [%v]
    prints the node through its [String] method. *)
Definition still_in_use (n : Node) : string :=
  "[Node] (" +:+ Node_String n +:+ "); Connections still in use.".

(** A method called through a nil [*connection] dereferences nil. *)
Definition nil_dereference : string :=
  "invalid memory address or nil pointer dereference".

(** ** The operations of node.go *)

Section Operations.

Variable W : Collaborators.

(** *** Calls on a connection

    The connection type and its constructor are declared in another file
    of the package.  The node only uses the contract [connect() error],
    [execute(cmd) error], [notInFlight()], [resetBuffer()],
    [close() error]: each call is logged and answered by [W].  The methods
    work on their receiver's fields, so a call through a nil receiver
    dereferences nil and panics before anything is logged. *)

(** Modelled from the spec: [connection.notInFlight()], whose body is
    missing; it marks the connection as not in flight. *)
Definition notInFlight (c : connptr) : Go unit :=
  match c with
  | None => panic nil_dereference
  | Some c => record (CallNotInFlight c)
  end.

(** Modelled from the spec: [connection.resetBuffer()], whose body is
    missing; it resets the connection's read/write buffer. *)
Definition resetBuffer (c : connptr) : Go unit :=
  match c with
  | None => panic nil_dereference
  | Some c => record (CallResetBuffer c)
  end.

(** Modelled from the spec: [connection.close()], whose body is missing;
    it closes the connection and may return an error. *)
Definition close (c : connptr) : Go (option error) :=
  match c with
  | None => panic nil_dereference
  | Some c =>
      fun w => (Returns (conn_close W (calls w) c),
                {| node := node w; calls := calls w ++ [CallClose c] |})
  end.

(** Modelled from the spec: [connection.connect()], whose body is
    missing; it opens the session and may return an error. *)
Definition connect (c : conn) : Go (option error) :=
  fun w => (Returns (conn_connect W (calls w) c),
            {| node := node w; calls := calls w ++ [CallConnect c] |}).

(** Modelled from the spec: [connection.execute(cmd)], whose body is
    missing; it runs the command and may return an error. *)
Definition execute (c : conn) (cmd : Command) : Go (option error) :=
  fun w => (Returns (conn_execute W (calls w) c cmd),
            {| node := node w; calls := calls w ++ [CallExecute c cmd] |}).

(** Modelled from the spec: [newConnection(options)], whose body is
    missing; it answers with a connection or with an error. *)
Definition dial (o : connectionOptions) : Go (conn + error) :=
  fun w => (Returns (newConnection W (calls w) o),
            {| node := node w; calls := calls w ++ [CallNewConnection o] |}).

(** *** [setState] and [stateCheck] *)

Definition setState (s : state) : Go unit := update (with_state s).

(** The loop over [allowed] with its [break] is [existsb]. *)
Definition stateCheck (allowed : list state) : Go (option error) :=
  let* s := get nstate in
  let stateChecked := existsb (state_eqb s) allowed in
  if negb stateChecked then ret (Some (IllegalState allowed s))
  else ret None.

(** *** Checkout *)

Definition getAvailableConnection : Go connptr :=
  let* l := get available in
  match l with
  | c :: rest => run update (with_available rest) in ret c
  | [] => ret None
  end.

(** *** Checkin *)

Definition returnConnectionToPool (c : connptr) (shouldLock : bool) : Go unit :=
  let* s := get nstate in
  if state_ltb s SHUTTING_DOWN then
    run notInFlight c in
    run resetBuffer c in
    let* l := get available in
    update (with_available (l ++ [c]))
  else
    let* k := get currentNumConnections in
    run update (with_count (wrap16 (k - 1))) in
    let* _ := close c in
    ret tt.

(** *** Creation *)

Definition createNewConnection : Go (connptr * option error) :=
  let* a := get addr in
  let* ct := get connectTimeout in
  let* rt := get requestTimeout in
  let* b := get healthCheckBuilder in
  let* hc := match b with
             | Some b => run record CallBuild in ret (Some (Build b))
             | None => ret None
             end in
  let connectionOptions :=
    {| remoteAddress := a;
       co_connectTimeout := ct;
       co_requestTimeout := rt;
       healthCheck := hc |} in
  let* r := dial connectionOptions in
  match r with
  | inl c =>
      let* err := connect c in
      match err with
      | None =>
          let* k := get currentNumConnections in
          run update (with_count (wrap16 (k + 1))) in
          ret (Some c, None)
      | Some e => ret (Some c, Some e)
      end
  | inr e => ret (None, Some e)
  end.

(** *** [Start] *)

(** One turn of the warm-fill loop. *)
Definition warmFillOnce : Go unit :=
  let* r := createNewConnection in
  match r with
  | (c, None) => returnConnectionToPool c false
  | (_, Some _) => ret tt
  end.

(** [for i = 0; i < n.minConnections; i++]: the body reads neither [i] nor
    writes [minConnections], and [i] cannot wrap before it reaches a
    [uint16] bound, so the loop is the body run [minConnections] times. *)
Fixpoint warmFill (turns : nat) : Go unit :=
  match turns with
  | O => ret tt
  | S turns => run warmFillOnce in warmFill turns
  end.

Definition Start : Go (option error) :=
  let* err := stateCheck [CREATED] in
  match err with
  | Some e => ret (Some e)
  | None =>
      let* m := get minConnections in
      run warmFill (Z.to_nat m) in
      run setState RUNNING in
      ret None
  end.

(** *** [Execute] *)

Definition Execute (cmd : Command) : Go (bool * option error) :=
  let* err := stateCheck [RUNNING; HEALTH_CHECKING] in
  match err with
  | Some e => ret (false, Some e)
  | None =>
      let* s := get nstate in
      if state_eqb s RUNNING then
        let* c := getAvailableConnection in
        match c with
        | None => ret (false, None)
        | Some c =>
            let* err := execute c cmd in
            match err with
            | None => ret (true, None)
            | Some e => ret (false, Some e)
            end
        end
      else ret (false, None)
  end.

(** *** [shutdown] and [Stop] *)

(** [for i, conn := range n.available]: the slice is read once, and turn
    [i] sees the element that was at index [i] when the loop began.  [err]
    is assigned on every turn and the loop has no [break]. *)
Fixpoint drain (i : nat) (conns : list connptr) (err : option error)
  : Go (option error) :=
  match conns with
  | [] => ret err
  | c :: rest =>
      let* l := get available in
      run update (with_available (<[i := None]> l)) in
      let* k := get currentNumConnections in
      run update (with_count (wrap16 (k - 1))) in
      let* err := close c in
      drain (S i) rest err
  end.

Definition shutdown : Go (option error) :=
  let* l := get available in
  let* err := drain 0 l None in
  match err with
  | Some e => run setState ERROR in ret (Some e)
  | None =>
      let* k := get currentNumConnections in
      if k =? 0 then run setState SHUTDOWN in ret None
      else
        let* n := get (fun n : Node => n) in
        panic (still_in_use n)
  end.

(** [n.shutdown()] is called as a statement: its result is dropped, and
    [Stop] returns the [err] that [stateCheck] left, which is nil here. *)
Definition Stop : Go (option error) :=
  let* err := stateCheck [CREATED; HEALTH_CHECKING] in
  match err with
  | Some e => ret (Some e)
  | None =>
      run setState SHUTTING_DOWN in
      let* _ := shutdown in
      ret None
  end.

(** A caller that issues one [Execute] per command, in order. *)
Fixpoint ExecuteEach (cmds : list Command) : Go (list (bool * option error)) :=
  match cmds with
  | [] => ret []
  | cmd :: rest =>
      let* r := Execute cmd in
      let* rs := ExecuteEach rest in
      ret (r :: rs)
  end.

End Operations.

(** ** Scenarios

    Concrete collaborators and nodes on which the operations are
    evaluated. *)

Module Scenario.

(** Values for the package constants; the scenarios set every option
    themselves and do not depend on them. *)
Definition defaults : Defaults :=
  {| defaultRemoteAddress := "127.0.0.1:8087";
     defaultMinConnections := 1;
     defaultMaxConnections := 8;
     defaultIdleTimeout := 3;
     defaultConnectTimeout := 30;
     defaultRequestTimeout := 5 |}.

(** The number of dials in a log; the next connection gets it as identity. *)
Definition dials (l : list call) : nat :=
  length (List.filter (fun c => match c with
                                | CallNewConnection _ => true
                                | _ => false
                                end) l).

(** A collaborator that always dials successfully and never fails. *)
Definition reliable : Collaborators :=
  {| resolveTCPAddr := fun a => inl a;
     newConnection := fun l _ => inl (dials l);
     conn_connect := fun _ _ => None;
     conn_execute := fun _ _ _ => None;
     conn_close := fun _ _ => None |}.

(** The same, except that closing connection [0] fails. *)
Definition close_of_0_fails : Collaborators :=
  {| resolveTCPAddr := fun a => inl a;
     newConnection := fun l _ => inl (dials l);
     conn_connect := fun _ _ => None;
     conn_execute := fun _ _ _ => None;
     conn_close := fun _ c =>
       match c with
       | O => Some (External "close 0")
       | S _ => None
       end |}.

(** The same as [reliable], except that no command succeeds. *)
Definition execute_fails : Collaborators :=
  {| resolveTCPAddr := fun a => inl a;
     newConnection := fun l _ => inl (dials l);
     conn_connect := fun _ _ => None;
     conn_execute := fun _ _ _ => Some (External "execute");
     conn_close := fun _ _ => None |}.

(** [minConnections = 2, maxConnections = 4], every option set. *)
Definition two_to_four : NodeOptions :=
  {| RemoteAddress := "10.0.0.1:8087";
     MinConnections := 2;
     MaxConnections := 4;
     IdleTimeout := 3;
     ConnectTimeout := 30;
     RequestTimeout := 5;
     HealthCheckBuilder := None |}.

(** A node value with the given pool, live count and state. *)
Definition a_node (idle : list connptr) (live : Z) (s : state) : Node :=
  {| addr := "10.0.0.1:8087";
     minConnections := 2;
     maxConnections := 4;
     idleTimeout := 3;
     connectTimeout := 30;
     requestTimeout := 5;
     healthCheckBuilder := None;
     available := idle;
     currentNumConnections := live;
     nstate := s |}.

(** What [NewNode] returns for [two_to_four]. *)
Definition fresh : Node := a_node [None; None] 0 CREATED.

Definition at_rest (n : Node) : World := {| node := n; calls := [] |}.

Definition ping : Command := {| Name := "ping" |}.

End Scenario.

(** ** Vocabulary of the properties *)

(** [m] increments, and [m] decrements, of a [uint16] counter. *)
Definition count_up (k : Z) (m : nat) : Z :=
  Nat.iter m (fun k => wrap16 (k + 1)) k.

Definition count_down (k : Z) (m : nat) : Z :=
  Nat.iter m (fun k => wrap16 (k - 1)) k.

(** The node after one more connection was created and checked in. *)
Definition pooled (c : conn) (n : Node) : Node :=
  with_available (available n ++ [Some c])
    (with_count (wrap16 (currentNumConnections n + 1)) n).

(** The slots [i, i + m) written to nil, one after the other. *)
Fixpoint nil_out (i m : nat) (l : list connptr) : list connptr :=
  match m with
  | O => l
  | S m => nil_out (S i) m (<[i := None]> l)
  end.

(** The value of [err] when the loop over [cs] ends: what the close of the
    LAST connection answered, or [err] unchanged on an empty pool. *)
Fixpoint last_answer (W : Collaborators) (t : list call) (cs : list conn)
    (err : option error) : option error :=
  match cs with
  | [] => err
  | c :: cs => last_answer W (t ++ [CallClose c]) cs (conn_close W t c)
  end.

(** [&NodeOptions{}]: every field at its zero value. *)
Definition zeroNodeOptions : NodeOptions :=
  {| RemoteAddress := "";
     MinConnections := 0;
     MaxConnections := 0;
     IdleTimeout := 0;
     ConnectTimeout := 0;
     RequestTimeout := 0;
     HealthCheckBuilder := None |}.

(** A caller that checks out [k] times in a row. *)
Fixpoint checkouts (k : nat) : Go (list connptr) :=
  match k with
  | O => ret []
  | S k =>
      let* c := getAvailableConnection in
      let* cs := checkouts k in
      ret (c :: cs)
  end.

(** The number of [newConnection] calls, and of [Build] calls, in a log. *)
Definition is_dial (c : call) : bool :=
  match c with
  | CallNewConnection _ => true
  | _ => false
  end.

Definition is_build (c : call) : bool :=
  match c with
  | CallBuild => true
  | _ => false
  end.

Definition count_calls (p : call -> bool) (l : list call) : nat :=
  length (List.filter p l).

(** The number of results with [executed = true]. *)
Definition executed_count (rs : list (bool * option error)) : nat :=
  length (List.filter fst rs).

(** The number of slots of a pool that hold a connection. *)
Definition live_entries (l : list connptr) : nat :=
  length (List.filter (fun p : option nat => match p with
                                             | Some _ => true
                                             | None => false
                                             end) l).

(** ** Properties *)

(** *** States *)

Lemma state_eqb_eq (a b : state) : state_eqb a b = true <-> a = b.
Proof.
  split.
  - destruct a, b; simpl; intros H; first [reflexivity | discriminate H].
  - intros ->. destruct b; reflexivity.
Qed.

Lemma state_eqb_refl (a : state) : state_eqb a a = true.
Proof. destruct a; reflexivity. Qed.

(** The states that compare below [SHUTTING_DOWN]: [ERROR] is among them. *)
Lemma before_shutting_down (s : state) :
  state_ltb s SHUTTING_DOWN = true <->
  s = ERROR \/ s = CREATED \/ s = RUNNING \/ s = HEALTH_CHECKING.
Proof.
  split.
  - destruct s; simpl; intros H; auto; discriminate H.
  - intros [-> | [-> | [-> | ->]]]; reflexivity.
Qed.

(** *** Counting with wrap-around *)

Lemma count_down_S (k : Z) (m : nat) :
  count_down (wrap16 (k - 1)) m = count_down k (S m).
Proof.
  unfold count_down. induction m as [|m IH]; simpl.
  - reflexivity.
  - simpl in IH. rewrite IH. reflexivity.
Qed.

Lemma count_up_S (k : Z) (m : nat) :
  count_up (wrap16 (k + 1)) m = count_up k (S m).
Proof.
  unfold count_up. induction m as [|m IH]; simpl.
  - reflexivity.
  - simpl in IH. rewrite IH. reflexivity.
Qed.

Lemma count_up_exact (k : Z) (m : nat) :
  0 <= k -> k + Z.of_nat m < 65536 -> count_up k m = k + Z.of_nat m.
Proof.
  intros Hk. induction m as [|m IH]; intros Hm.
  - unfold count_up. simpl. lia.
  - unfold count_up in *. simpl. rewrite IH by lia.
    unfold wrap16. rewrite Z.mod_small; lia.
Qed.

(** *** The state guard *)

Lemma stateCheck_runs (allowed : list state) (w : World) :
  stateCheck allowed w =
  (Returns (if existsb (state_eqb (nstate (node w))) allowed then None
            else Some (IllegalState allowed (nstate (node w)))), w).
Proof.
  unfold stateCheck, bind, get, ret.
  destruct (existsb _ allowed); reflexivity.
Qed.

(** *** [NewNode] *)

Lemma NewNode_fields (K : Defaults) (W : Collaborators)
    (options : option NodeOptions) (n : Node) :
  NewNode K W options = inl n ->
  available n = replicate (Z.to_nat (minConnections n)) None /\
  currentNumConnections n = 0 /\
  nstate n = CREATED.
Proof.
  unfold NewNode. destruct (resolveTCPAddr W _) as [a|e]; intros H.
  - injection H as <-. simpl. auto.
  - discriminate H.
Qed.

(** *** Warm fill *)

Section WarmFill.

Variable W : Collaborators.

Lemma warmFillOnce_runs (w : World) :
  state_ltb (nstate (node w)) SHUTTING_DOWN = true ->
  exists w', warmFillOnce W w = (Returns tt, w') /\
    (node w' = node w \/ exists c, node w' = pooled c (node w)).
Proof.
  intros Hs. destruct w as [n t].
  unfold warmFillOnce, createNewConnection, bind, get, dial, connect; simpl.
  destruct (healthCheckBuilder n) as [b|]; simpl;
    (destruct (newConnection W _ _) as [c|e]; simpl;
     [ destruct (conn_connect W _ c) as [e|]; simpl
     | ]);
    unfold returnConnectionToPool, bind, get; simpl in *; try rewrite Hs; simpl;
    eexists; (split; [reflexivity|]); simpl; auto; right; exists c; reflexivity.
Qed.

Lemma warmFill_runs (turns : nat) (w : World) :
  state_ltb (nstate (node w)) SHUTTING_DOWN = true ->
  exists w' cs, warmFill W turns w = (Returns tt, w') /\
    (length cs <= turns)%nat /\
    node w' =
      with_available (available (node w) ++ map Some cs)
        (with_count (count_up (currentNumConnections (node w)) (length cs))
           (node w)).
Proof.
  revert w. induction turns as [|turns IH]; intros [n t] Hs.
  - exists {| node := n; calls := t |}, []. simpl.
    split; [reflexivity|]. split; [lia|].
    rewrite app_nil_r. destruct n; reflexivity.
  - simpl. unfold bind.
    destruct (warmFillOnce_runs {| node := n; calls := t |} Hs)
      as (w1 & -> & Hw1).
    destruct Hw1 as [Hsame | [c Hc]].
    + destruct (IH w1) as (w' & cs & -> & Hlen & Hn).
      { rewrite Hsame. exact Hs. }
      exists w', cs. split; [reflexivity|]. split; [lia|].
      rewrite Hn, Hsame. reflexivity.
    + destruct (IH w1) as (w' & cs & -> & Hlen & Hn).
      { rewrite Hc. exact Hs. }
      exists w', (c :: cs). split; [reflexivity|]. split; [simpl; lia|].
      rewrite Hn, Hc. simpl. unfold with_available, with_count; simpl.
      rewrite <- app_assoc. simpl.
      rewrite count_up_S. reflexivity.
Qed.

(** [Start] on a [CREATED] node always returns nil and leaves the node
    [RUNNING], with the connections it dialled appended to the pool. *)
Lemma Start_runs (w : World) :
  nstate (node w) = CREATED ->
  exists w' cs, Start W w = (Returns None, w') /\
    (length cs <= Z.to_nat (minConnections (node w)))%nat /\
    node w' =
      with_state RUNNING
        (with_available (available (node w) ++ map Some cs)
           (with_count (count_up (currentNumConnections (node w)) (length cs))
              (node w))).
Proof.
  intros Hs. unfold Start. unfold bind at 1. rewrite stateCheck_runs, Hs. simpl.
  unfold bind, get. simpl.
  destruct (warmFill_runs (Z.to_nat (minConnections (node w))) w)
    as (w1 & cs & -> & Hlen & Hn).
  { rewrite Hs. reflexivity. }
  unfold setState, update, ret. simpl.
  eexists; exists cs. split; [reflexivity|]. split; [exact Hlen|].
  simpl. rewrite Hn. reflexivity.
Qed.

End WarmFill.

(** *** Checkout of a nil slot *)

Lemma Execute_on_nil_slot (W : Collaborators) (cmd : Command) (w : World)
    (rest : list connptr) :
  nstate (node w) = RUNNING ->
  available (node w) = None :: rest ->
  Execute W cmd w =
  (Returns (false, None),
   {| node := with_available rest (node w); calls := calls w |}).
Proof.
  intros Hs Ha. unfold Execute. unfold bind at 1.
  rewrite stateCheck_runs, Hs. simpl.
  unfold bind, get, getAvailableConnection, bind, get, update, ret. simpl.
  rewrite Hs. simpl. rewrite Ha. reflexivity.
Qed.

Lemma ExecuteEach_on_nil_slots (W : Collaborators) (cmds : list Command) :
  forall (w : World) (k : nat) (rest : list connptr),
    nstate (node w) = RUNNING ->
    available (node w) = replicate k None ++ rest ->
    (length cmds <= k)%nat ->
    ExecuteEach W cmds w =
    (Returns (replicate (length cmds) (false, None)),
     {| node := with_available (replicate (k - length cmds) None ++ rest)
                  (node w);
        calls := calls w |}).
Proof.
  induction cmds as [|cmd cmds IH]; intros w k rest Hs Ha Hk.
  - simpl. unfold ret. rewrite Nat.sub_0_r, <- Ha.
    destruct w as [n t]; destruct n; reflexivity.
  - destruct k as [|k]; [simpl in Hk; lia|].
    simpl in Ha. simpl ExecuteEach. unfold bind at 1.
    rewrite (Execute_on_nil_slot W cmd w _ Hs Ha).
    unfold bind at 1.
    rewrite (IH _ k rest); [ | exact Hs | reflexivity | simpl in Hk; lia ].
    reflexivity.
Qed.

(** *** C1 *)

(** C1 (defect of the code).  The claim is that [currentNumConnections] is
    at least the length of [available] at every point, in particular right
    after [NewNode] returns and after [Start] completes.  On the code,
    [NewNode] with [MinConnections = 2] returns a node whose pool has
    length 2 while its live count is 0, and [Start] with a collaborator
    that always dials successfully leaves a pool of length 4 against a live
    count of 2: the count is below the length at both points. *)
Theorem NewNode_count_below_pool_length :
  NewNode Scenario.defaults Scenario.reliable (Some Scenario.two_to_four)
    = inl Scenario.fresh /\
  currentNumConnections Scenario.fresh
    < Z.of_nat (length (available Scenario.fresh)) /\
  exists w',
    Start Scenario.reliable (Scenario.at_rest Scenario.fresh)
      = (Returns None, w') /\
    currentNumConnections (node w') = 2 /\
    length (available (node w')) = 4%nat.
Proof.
  split; [reflexivity|]. split; [simpl; lia|].
  eexists. split; [reflexivity|]. split; reflexivity.
Qed.

(** The same for every collaborator and every configuration: a node that
    [NewNode] returned with [0 < minConnections <= 65535] has a live count
    below the length of its pool, and still has after [Start]. *)
Lemma NewNode_then_Start_count_below_pool_length
    (K : Defaults) (W : Collaborators) (options : option NodeOptions)
    (n : Node) (t : list call) :
  NewNode K W options = inl n ->
  0 < minConnections n <= 65535 ->
  currentNumConnections n < Z.of_nat (length (available n)) /\
  exists w',
    Start W {| node := n; calls := t |} = (Returns None, w') /\
    currentNumConnections (node w') < Z.of_nat (length (available (node w'))).
Proof.
  intros HN Hm. destruct (NewNode_fields K W options n HN) as (Ha & Hc & Hs).
  split.
  - rewrite Hc, Ha, length_replicate. lia.
  - destruct (Start_runs W {| node := n; calls := t |} Hs)
      as (w' & cs & HS & Hlen & Hn).
    simpl in *. exists w'. split; [exact HS|].
    rewrite Hn. simpl. rewrite Hc, Ha.
    rewrite count_up_exact by lia.
    rewrite length_app, length_replicate, length_map. lia.
Qed.

(** *** C2 *)

(** C2 (defect of the code).  The claim is that after a successful [Start]
    the node is [RUNNING] and the pool holds between 0 and [minConnections]
    entries.  On the code [Start] does return nil and does leave the node
    [RUNNING], but with [minConnections = 2] and a collaborator that always
    dials successfully the pool is [nil; nil; c0; c1]: its length 4 exceeds
    [minConnections]. *)
Theorem Start_pool_exceeds_minConnections :
  exists w',
    Start Scenario.reliable (Scenario.at_rest Scenario.fresh)
      = (Returns None, w') /\
    nstate (node w') = RUNNING /\
    available (node w') = [None; None; Some 0%nat; Some 1%nat] /\
    minConnections (node w') < Z.of_nat (length (available (node w'))).
Proof.
  eexists. split; [reflexivity|]. simpl.
  split; [reflexivity|]. split; [reflexivity|]. lia.
Qed.

(** What does hold of [Start], for every collaborator: on a [CREATED] node
    it returns nil whatever the dials answer, the node is [RUNNING], and
    the pool has grown by at most [minConnections] entries. *)
Lemma Start_grows_pool_by_at_most_min (W : Collaborators) (w : World) :
  nstate (node w) = CREATED ->
  exists w', Start W w = (Returns None, w') /\
    nstate (node w') = RUNNING /\
    (length (available (node w)) <= length (available (node w'))
     <= length (available (node w)) + Z.to_nat (minConnections (node w)))%nat.
Proof.
  intros Hs. destruct (Start_runs W w Hs) as (w' & cs & HS & Hlen & Hn).
  exists w'. split; [exact HS|]. rewrite Hn. simpl.
  split; [reflexivity|]. rewrite length_app, length_map. lia.
Qed.

(** *** C10 *)

(** C10.  Every node returned by [NewNode] has a pool of [minConnections]
    nil entries and a live count of 0.  [Start] on it returns nil and
    appends the connections it dialled behind these entries, and whenever
    at most [minConnections] commands are then executed one after the
    other, every [Execute] returns [(false, nil)] and pops one nil entry,
    the live connections staying pooled behind the remaining ones. *)
Theorem NewNode_nil_slots_are_checked_out_first
    (K : Defaults) (W : Collaborators) (options : option NodeOptions)
    (n : Node) :
  NewNode K W options = inl n ->
  available n = replicate (Z.to_nat (minConnections n)) None /\
  currentNumConnections n = 0 /\
  forall t : list call,
  exists (w1 : World) (cs : list conn),
    Start W {| node := n; calls := t |} = (Returns None, w1) /\
    available (node w1)
      = replicate (Z.to_nat (minConnections n)) None ++ map Some cs /\
    forall cmds : list Command,
      (length cmds <= Z.to_nat (minConnections n))%nat ->
      exists w2 : World,
        ExecuteEach W cmds w1
          = (Returns (replicate (length cmds) (false, None)), w2) /\
        available (node w2)
          = replicate (Z.to_nat (minConnections n) - length cmds) None
            ++ map Some cs.
Proof.
  intros HN. destruct (NewNode_fields K W options n HN) as (Ha & Hc & Hs).
  split; [exact Ha|]. split; [exact Hc|]. intros t.
  destruct (Start_runs W {| node := n; calls := t |} Hs)
    as (w1 & cs & HS & _ & Hn).
  simpl in Hn. exists w1, cs. split; [exact HS|].
  assert (Hw1 : available (node w1)
                = replicate (Z.to_nat (minConnections n)) None ++ map Some cs).
  { rewrite Hn. simpl. rewrite <- Ha. reflexivity. }
  split; [exact Hw1|]. intros cmds Hlen.
  eexists. split.
  - apply (ExecuteEach_on_nil_slots W cmds w1
             (Z.to_nat (minConnections n)) (map Some cs)).
    + rewrite Hn. reflexivity.
    + exact Hw1.
    + exact Hlen.
  - reflexivity.
Qed.

Lemma NewNode_nil_slots_witness :
  NewNode Scenario.defaults Scenario.reliable (Some Scenario.two_to_four)
    = inl Scenario.fresh /\
  available Scenario.fresh = [None; None] /\
  currentNumConnections Scenario.fresh = 0.
Proof.
  split; [reflexivity|].
  destruct (NewNode_nil_slots_are_checked_out_first
              Scenario.defaults Scenario.reliable (Some Scenario.two_to_four)
              Scenario.fresh eq_refl) as (Ha & Hc & _).
  split; [exact Ha | exact Hc].
Defined.

(** *** The shutdown drain *)

Lemma nil_out_tail (pre l : list connptr) :
  nil_out (length pre) (length l) (pre ++ l)
  = pre ++ replicate (length l) None.
Proof.
  revert pre. induction l as [|c l IH]; intros pre; simpl.
  - reflexivity.
  - rewrite insert_app_r_alt by lia. rewrite Nat.sub_diag. simpl.
    specialize (IH (pre ++ [None])).
    rewrite length_app in IH. simpl in IH.
    rewrite Nat.add_1_r in IH. rewrite <- !app_assoc in IH. simpl in IH.
    exact IH.
Qed.

Lemma nil_out_all (l : list connptr) :
  nil_out 0 (length l) l = replicate (length l) None.
Proof. exact (nil_out_tail [] l). Qed.

Lemma count_down_wraps (k : Z) (m : nat) :
  count_down k (S m) = wrap16 (k - Z.of_nat (S m)).
Proof.
  induction m as [|m IH].
  - reflexivity.
  - change (count_down k (S (S m))) with (wrap16 (count_down k (S m) - 1)).
    rewrite IH. unfold wrap16. rewrite Zminus_mod_idemp_l.
    f_equal. lia.
Qed.

Lemma count_down_to_zero (m : nat) : count_down (Z.of_nat m) m = 0.
Proof.
  destruct m as [|m]; [reflexivity|].
  rewrite count_down_wraps, Z.sub_diag. reflexivity.
Qed.

Lemma last_answer_nil (W : Collaborators) (cs : list conn) :
  forall t : list call,
    (forall (c : conn) (t' : list call), In c cs -> conn_close W t' c = None) ->
    last_answer W t cs None = None.
Proof.
  induction cs as [|c cs IH]; intros t Hok; simpl.
  - reflexivity.
  - rewrite (Hok c t) by (left; reflexivity).
    apply IH. intros c' t' Hin. apply Hok. right. exact Hin.
Qed.

Section Drain.

Variable W : Collaborators.

(** The loop visits every idle connection whatever the closes answer: each
    slot is written to nil, the count is decremented once per slot, every
    connection is closed, and the loop returns the last close's answer. *)
Lemma drain_runs (cs : list conn) :
  forall (i : nat) (err : option error) (w : World),
    drain W i (map Some cs) err w =
    (Returns (last_answer W (calls w) cs err),
     {| node :=
          with_available (nil_out i (length cs) (available (node w)))
            (with_count
               (count_down (currentNumConnections (node w)) (length cs))
               (node w));
        calls := calls w ++ map CallClose cs |}).
Proof.
  induction cs as [|c cs IH]; intros i err [n t].
  - simpl. unfold ret. rewrite app_nil_r. destruct n; reflexivity.
  - simpl. unfold bind, get, update, close. simpl.
    rewrite IH. simpl. rewrite <- app_assoc. simpl.
    rewrite count_down_S. reflexivity.
Qed.

Lemma shutdown_of_live_pool (cs : list conn) (w : World) :
  available (node w) = map Some cs ->
  currentNumConnections (node w) = Z.of_nat (length cs) ->
  (forall (c : conn) (t : list call), In c cs -> conn_close W t c = None) ->
  shutdown W w =
  (Returns None,
   {| node :=
        with_state SHUTDOWN
          (with_available (replicate (length cs) None)
             (with_count 0 (node w)));
      calls := calls w ++ map CallClose cs |}).
Proof.
  intros Ha Hk Hok. unfold shutdown. unfold bind at 1. unfold get at 1.
  rewrite Ha. unfold bind at 1. rewrite drain_runs.
  rewrite last_answer_nil by exact Hok.
  unfold bind, get, setState, update, ret. simpl.
  rewrite Hk, count_down_to_zero. simpl.
  rewrite Ha. rewrite <- (length_map Some cs) at 1 2.
  rewrite nil_out_all, length_map. reflexivity.
Qed.

End Drain.

(** The node of the scenarios below, two idle connections and nothing
    checked out, is what the operations themselves produce: [Start] on the
    fresh node, two [Execute] that pop the nil slots, and the health
    checker's [setState]. *)
Lemma idle_pair_is_reached :
  exists t : list call,
    (run Start Scenario.reliable in
     run Execute Scenario.reliable Scenario.ping in
     run Execute Scenario.reliable Scenario.ping in
     setState HEALTH_CHECKING)
      (Scenario.at_rest Scenario.fresh)
    = (Returns tt,
       {| node := Scenario.a_node [Some 0%nat; Some 1%nat] 2 HEALTH_CHECKING;
          calls := t |}).
Proof. eexists. reflexivity. Qed.

(** *** C3 *)

(** C3 (defect of the code).  The claim is that after a [Stop] with
    nothing checked out and no close failure the state is [SHUTDOWN], the
    live count is 0 and [available] is empty.  On the code, a
    [HEALTH_CHECKING] node with two idle connections and a live count of 2
    is stopped and no close fails: [Stop] returns nil, the state is
    [SHUTDOWN] and the count is 0, but the drain only writes nil into the
    slots and never truncates the slice, so [available] is [nil; nil]: it
    is not empty, and its length 2 is above the live count 0. *)
Theorem Stop_leaves_nil_slots :
  let n := Scenario.a_node [Some 0%nat; Some 1%nat] 2 HEALTH_CHECKING in
  currentNumConnections n = Z.of_nat (length (available n)) /\
  (forall (t : list call) (c : nat), conn_close Scenario.reliable t c = None) /\
  exists w',
    Stop Scenario.reliable (Scenario.at_rest n) = (Returns None, w') /\
    nstate (node w') = SHUTDOWN /\
    currentNumConnections (node w') = 0 /\
    available (node w') = [None; None] /\
    currentNumConnections (node w')
      < Z.of_nat (length (available (node w'))) /\
    ~ (nstate (node w') = SHUTDOWN /\
       currentNumConnections (node w') = 0 /\
       available (node w') = []).
Proof.
  simpl. split; [reflexivity|]. split; [reflexivity|].
  eexists. split; [reflexivity|]. simpl.
  split; [reflexivity|]. split; [reflexivity|]. split; [reflexivity|].
  split; [vm_compute; reflexivity|]. intros (_ & _ & H). discriminate H.
Qed.

(** The same for every pool and every collaborator.  When [Stop] passes
    its guard with nothing checked out (every idle entry is a connection
    and the live count is their number) and no close fails, [Stop] returns
    nil, the state is [SHUTDOWN], the live count is 0 and every idle
    connection has been closed; the slots are nil but the slice has the
    length it had, so a non-empty pool is never left empty. *)
Lemma Stop_drains_live_pool (W : Collaborators) (w : World)
    (cs : list conn) :
  nstate (node w) = CREATED \/ nstate (node w) = HEALTH_CHECKING ->
  available (node w) = map Some cs ->
  currentNumConnections (node w) = Z.of_nat (length cs) ->
  (forall (c : conn) (t : list call), In c cs -> conn_close W t c = None) ->
  exists w',
    Stop W w = (Returns None, w') /\
    nstate (node w') = SHUTDOWN /\
    currentNumConnections (node w') = 0 /\
    available (node w') = replicate (length cs) None /\
    calls w' = calls w ++ map CallClose cs.
Proof.
  intros Hs Ha Hk Hok. unfold Stop. unfold bind at 1.
  rewrite stateCheck_runs.
  assert (Hg : existsb (state_eqb (nstate (node w)))
                 [CREATED; HEALTH_CHECKING] = true).
  { destruct Hs as [-> | ->]; reflexivity. }
  rewrite Hg. unfold bind at 1. unfold setState, update.
  unfold bind at 1.
  rewrite (shutdown_of_live_pool W cs) by assumption.
  unfold ret. eexists. split; [reflexivity|]. simpl. auto.
Qed.

Lemma Stop_drains_live_pool_witness :
  exists w',
    Stop Scenario.reliable
      (Scenario.at_rest
         (Scenario.a_node [Some 0%nat; Some 1%nat] 2 HEALTH_CHECKING))
      = (Returns None, w') /\
    nstate (node w') = SHUTDOWN /\
    currentNumConnections (node w') = 0 /\
    available (node w') = replicate 2 None /\
    calls w' = [CallClose 0%nat; CallClose 1%nat].
Proof.
  apply (Stop_drains_live_pool Scenario.reliable
           (Scenario.at_rest
              (Scenario.a_node [Some 0%nat; Some 1%nat] 2 HEALTH_CHECKING))
           [0%nat; 1%nat]).
  - right. reflexivity.
  - reflexivity.
  - reflexivity.
  - intros c t _. reflexivity.
Defined.

(** *** C4 *)

(** C4 (defect of the code).  The claim is that a failing close aborts the
    drain, sets the state to [ERROR] and is surfaced by [Stop], the later
    idle connections being left alone.  On the code, with two idle
    connections of which the first fails to close, the loop goes on: the
    second connection is closed and counted too, its nil answer overwrites
    [err], the state becomes [SHUTDOWN], and [Stop] returns nil. *)
Theorem Stop_hides_failed_close :
  conn_close Scenario.close_of_0_fails [] 0%nat
    = Some (External "close 0") /\
  Stop Scenario.close_of_0_fails
    (Scenario.at_rest
       (Scenario.a_node [Some 0%nat; Some 1%nat] 2 HEALTH_CHECKING))
  = (Returns None,
     {| node := Scenario.a_node [None; None] 0 SHUTDOWN;
        calls := [CallClose 0%nat; CallClose 1%nat] |}).
Proof. split; reflexivity. Qed.

(** [Stop] drops what [shutdown] returns: the only error it can return is
    the guard's, and then nothing was done. *)
Lemma Stop_returns_only_guard_errors (W : Collaborators) (w w' : World)
    (e : error) :
  Stop W w = (Returns (Some e), w') ->
  e = IllegalState [CREATED; HEALTH_CHECKING] (nstate (node w)) /\ w' = w.
Proof.
  unfold Stop. unfold bind at 1. rewrite stateCheck_runs.
  destruct (existsb _ _).
  - unfold bind at 1. unfold setState, update. unfold bind.
    destruct (shutdown W _) as [[r|msg] w1]; unfold ret; intros H;
      discriminate H.
  - unfold ret. intros H. injection H as <- <-. auto.
Qed.

(** When the close that fails is the last one, [shutdown] does set the
    state to [ERROR]; [Stop] still returns nil. *)
Lemma Stop_after_last_close_failed :
  Stop Scenario.close_of_0_fails
    (Scenario.at_rest
       (Scenario.a_node [Some 1%nat; Some 0%nat] 2 HEALTH_CHECKING))
  = (Returns None,
     {| node := Scenario.a_node [None; None] 0 ERROR;
        calls := [CallClose 1%nat; CallClose 0%nat] |}).
Proof. reflexivity. Qed.

(** *** Checkin *)

Section Checkin.

Variable W : Collaborators.

(** Below [SHUTTING_DOWN] the connection is reset and appended; the live
    count is untouched and nothing is closed. *)
Lemma returnConnectionToPool_pools (c : conn) (shouldLock : bool)
    (w : World) :
  state_ltb (nstate (node w)) SHUTTING_DOWN = true ->
  returnConnectionToPool W (Some c) shouldLock w =
  (Returns tt,
   {| node := with_available (available (node w) ++ [Some c]) (node w);
      calls := calls w ++ [CallNotInFlight c; CallResetBuffer c] |}).
Proof.
  intros Hs. unfold returnConnectionToPool. unfold bind at 1.
  unfold get at 1. rewrite Hs.
  unfold bind, notInFlight, resetBuffer, record, get, update. simpl.
  rewrite <- app_assoc. reflexivity.
Qed.

(** In [SHUTTING_DOWN] and in [SHUTDOWN] the connection is closed at once
    and the live count decremented; the pool is untouched. *)
Lemma returnConnectionToPool_closes (c : conn) (shouldLock : bool)
    (w : World) :
  nstate (node w) = SHUTTING_DOWN \/ nstate (node w) = SHUTDOWN ->
  returnConnectionToPool W (Some c) shouldLock w =
  (Returns tt,
   {| node := with_count (wrap16 (currentNumConnections (node w) - 1))
                (node w);
      calls := calls w ++ [CallClose c] |}).
Proof.
  intros Hs. unfold returnConnectionToPool. unfold bind at 1.
  unfold get at 1.
  assert (Hlt : state_ltb (nstate (node w)) SHUTTING_DOWN = false).
  { destruct Hs as [-> | ->]; reflexivity. }
  rewrite Hlt. reflexivity.
Qed.

End Checkin.

(** *** C5 *)

(** C5 (defect of the code).  The claim is that a connection returned in
    [SHUTTING_DOWN] or any later lifecycle state, the [ERROR] escape
    included, is closed and the live count decremented.  [ERROR] is the
    first constant of the [iota] block, so [n.state < SHUTTING_DOWN] holds
    for it: a connection returned to a node in [ERROR] is reset and
    appended to the pool, it is not closed, and the count keeps its
    value. *)
Theorem returnConnectionToPool_pools_in_ERROR :
  state_ltb ERROR SHUTTING_DOWN = true /\
  returnConnectionToPool Scenario.reliable (Some 7%nat) true
    (Scenario.at_rest (Scenario.a_node [] 1 ERROR))
  = (Returns tt,
     {| node := Scenario.a_node [Some 7%nat] 1 ERROR;
        calls := [CallNotInFlight 7%nat; CallResetBuffer 7%nat] |}).
Proof. split; reflexivity. Qed.

(** *** [Execute] *)

(** [Execute] always returns.  Its result and the world it leaves, by
    cases on the state, on the head of the pool and on the connection's
    answer. *)
Lemma Execute_runs (W : Collaborators) (cmd : Command) (w : World) :
  Execute W cmd w =
  match nstate (node w) with
  | RUNNING =>
      match available (node w) with
      | [] => (Returns (false, None), w)
      | None :: rest =>
          (Returns (false, None),
           {| node := with_available rest (node w); calls := calls w |})
      | Some c :: rest =>
          (Returns (match conn_execute W (calls w) c cmd with
                    | None => (true, None)
                    | Some e => (false, Some e)
                    end),
           {| node := with_available rest (node w);
              calls := calls w ++ [CallExecute c cmd] |})
      end
  | HEALTH_CHECKING => (Returns (false, None), w)
  | s => (Returns (false,
                   Some (IllegalState [RUNNING; HEALTH_CHECKING] s)), w)
  end.
Proof.
  unfold Execute. unfold bind at 1. rewrite stateCheck_runs.
  destruct w as [n t]. simpl.
  destruct (nstate n) eqn:Hs; simpl; try reflexivity;
    unfold bind, get, getAvailableConnection, bind, get, update, ret, execute;
    simpl; rewrite Hs; simpl; try reflexivity.
  destruct (available n) as [|[c|] rest]; simpl; try reflexivity.
  destruct (conn_execute W t c cmd); reflexivity.
Qed.

(** A checkout is never followed by a checkin: whenever [Execute] takes a
    slot from the pool, the pool is one slot shorter when it returns and
    the live count has its old value. *)
Lemma Execute_never_checks_in (W : Collaborators) (cmd : Command)
    (w : World) (p : option nat) (rest : list (option nat)) :
  nstate (node w) = RUNNING ->
  available (node w) = p :: rest ->
  exists r w',
    Execute W cmd w = (Returns r, w') /\
    available (node w') = rest /\
    currentNumConnections (node w') = currentNumConnections (node w).
Proof.
  intros Hs Ha. rewrite Execute_runs, Hs, Ha.
  destruct p as [c|]; eexists _, _; (split; [reflexivity|]); simpl; auto.
Qed.

(** *** C6 *)

(** C6 (defect of the code).  The claim is that [Execute] checks the
    connection back in before it returns, so that the length of the pool
    is what it was at the call.  [Execute] has no checkin: on a [RUNNING]
    node with one idle connection and a live count of 1, the pool is empty
    when [Execute] returns, after a successful command as well as after a
    failed one, while the live count is still 1. *)
Theorem Execute_leaves_pool_shorter :
  Execute Scenario.reliable Scenario.ping
    (Scenario.at_rest (Scenario.a_node [Some 0%nat] 1 RUNNING))
  = (Returns (true, None),
     {| node := Scenario.a_node [] 1 RUNNING;
        calls := [CallExecute 0%nat Scenario.ping] |}) /\
  Execute Scenario.execute_fails Scenario.ping
    (Scenario.at_rest (Scenario.a_node [Some 0%nat] 1 RUNNING))
  = (Returns (false, Some (External "execute")),
     {| node := Scenario.a_node [] 1 RUNNING;
        calls := [CallExecute 0%nat Scenario.ping] |}).
Proof. split; reflexivity. Qed.

(** *** C7 *)

(** C7.  For every command, every node and every collaborator, [Execute]
    returns, it never returns [executed = true] together with a non-nil
    error, and it never returns [executed = true] when the pool was empty
    at the call. *)
Theorem Execute_true_has_no_error_and_took_a_slot
    (W : Collaborators) (cmd : Command) (w : World) :
  exists (executed : bool) (err : option error) (w' : World),
    Execute W cmd w = (Returns (executed, err), w') /\
    ~ (executed = true /\ err <> None) /\
    ~ (executed = true /\ available (node w) = []).
Proof.
  rewrite Execute_runs.
  destruct (nstate (node w));
    try (eexists _, _, _; split; [reflexivity|];
         split; intros [H _]; discriminate H).
  destruct (available (node w)) as [|[c|] rest];
    try (eexists _, _, _; split; [reflexivity|];
         split; intros [H _]; discriminate H).
  destruct (conn_execute W (calls w) c cmd) as [e|];
    eexists _, _, _; (split; [reflexivity|]); split.
  - intros [H _]. discriminate H.
  - intros [_ H]. discriminate H.
  - intros [_ H]. apply H. reflexivity.
  - intros [_ H]. discriminate H.
Qed.

(** *** C9 *)

(** C9 (defect of the code).  The claim is that [Stop] works whenever the
    node is not already stopping, in particular on a [RUNNING] node.  The
    allow-list of [Stop] is [CREATED, HEALTH_CHECKING]: on every [RUNNING]
    node, whatever its pool, [Stop] returns the illegal-state error and
    leaves the node as it was, still [RUNNING], with no connection
    closed. *)
Theorem Stop_refuses_RUNNING (W : Collaborators) (n : Node)
    (t : list call) :
  Stop W {| node := with_state RUNNING n; calls := t |}
  = (Returns (Some (IllegalState [CREATED; HEALTH_CHECKING] RUNNING)),
     {| node := with_state RUNNING n; calls := t |}).
Proof. reflexivity. Qed.

(** A node that was started cannot be stopped through [Start] and [Stop]
    alone: after a successful [Start], [Stop] returns the illegal-state
    error. *)
Lemma Stop_after_Start_is_refused :
  exists w1,
    Start Scenario.reliable (Scenario.at_rest Scenario.fresh)
      = (Returns None, w1) /\
    Stop Scenario.reliable w1
      = (Returns (Some (IllegalState [CREATED; HEALTH_CHECKING] RUNNING)),
         w1).
Proof. eexists. split; reflexivity. Qed.

(** *** C8 *)

Lemma getAvailableConnection_runs (w : World) :
  getAvailableConnection w =
  match available (node w) with
  | c :: rest =>
      (Returns c,
       {| node := with_available rest (node w); calls := calls w |})
  | [] => (Returns None, w)
  end.
Proof.
  unfold getAvailableConnection, bind, get, update, ret.
  destruct (available (node w)); reflexivity.
Qed.

(** C8 (defect of the code).  The claim is that [Execute] returns
    [(false, nil)] exactly when the call passed the guard and either the
    state is no longer [RUNNING] or no connection is available.  On the
    code, after [NewNode] with [MinConnections = 2] and a [Start] whose
    dials all succeed, the node is [RUNNING] and two connections are idle
    in the pool, behind the two nil slots that [NewNode] made: the guard
    passes, the state is [RUNNING], the pool is not empty, and [Execute]
    still returns [(false, nil)], without running the command, because the
    slot it checks out is nil. *)
Theorem Execute_refuses_while_connections_are_idle :
  exists w1 w2 : World,
    Start Scenario.reliable (Scenario.at_rest Scenario.fresh)
      = (Returns None, w1) /\
    nstate (node w1) = RUNNING /\
    available (node w1) = [None; None; Some 0%nat; Some 1%nat] /\
    Execute Scenario.reliable Scenario.ping w1 = (Returns (false, None), w2) /\
    available (node w2) = [None; Some 0%nat; Some 1%nat] /\
    calls w2 = calls w1 /\
    ~ (nstate (node w1) <> RUNNING \/ available (node w1) = []).
Proof.
  eexists _, _. split; [reflexivity|]. simpl.
  split; [reflexivity|]. split; [reflexivity|]. split; [reflexivity|].
  split; [reflexivity|]. split; [reflexivity|].
  intros [H | H]; [apply H; reflexivity | discriminate H].
Qed.

(** What the code does instead, for every collaborator, command and world,
    stated on the state, the pool and the collaborator's answer.
    [Execute] returns [(false, nil)] exactly when the state is
    [HEALTH_CHECKING], or it is [RUNNING] and the pool is empty or its
    head slot is nil.  It returns [false] with a non-nil error exactly when
    the state is neither [RUNNING] nor [HEALTH_CHECKING], or it is
    [RUNNING], the head slot holds a connection and the command's run on
    it returns an error: this half of the claim holds as stated. *)
Lemma Execute_refusal_and_failure
    (W : Collaborators) (cmd : Command) (w : World) :
  exists (executed : bool) (err : option error) (w' : World),
    Execute W cmd w = (Returns (executed, err), w') /\
    ((executed = false /\ err = None) <->
     (nstate (node w) = HEALTH_CHECKING \/
      (nstate (node w) = RUNNING /\
       (available (node w) = [] \/
        exists rest : list (option nat),
          available (node w) = None :: rest)))) /\
    ((executed = false /\ err <> None) <->
     ((nstate (node w) <> RUNNING /\ nstate (node w) <> HEALTH_CHECKING) \/
      (nstate (node w) = RUNNING /\
       exists (c : nat) (rest : list (option nat)) (e : error),
         available (node w) = Some c :: rest /\
         conn_execute W (calls w) c cmd = Some e))).
Proof.
  rewrite Execute_runs.
  destruct (nstate (node w)) eqn:Hs.
  3: { (* RUNNING *)
    destruct (available (node w)) as [|[c|] rest] eqn:Ha.
    - eexists _, _, _. split; [reflexivity|]. split; split.
      + intros _. right. split; [reflexivity|]. left. reflexivity.
      + intros _. split; reflexivity.
      + intros [_ H]. congruence.
      + intros [[H _] | (_ & c' & r' & e' & H & _)];
          [congruence | discriminate H].
    - destruct (conn_execute W (calls w) c cmd) as [e|] eqn:He;
        eexists _, _, _; (split; [reflexivity|]); split; split.
      + intros [_ H]. discriminate H.
      + intros [H | (_ & [H | (r' & H)])]; discriminate H.
      + intros _. right. split; [reflexivity|]. exists c, rest, e.
        split; [reflexivity | exact He].
      + intros _. split; [reflexivity | discriminate].
      + intros [H _]. discriminate H.
      + intros [H | (_ & [H | (r' & H)])]; discriminate H.
      + intros [H _]. discriminate H.
      + intros [[H _] | (_ & c' & r' & e' & H1 & H)]; [congruence|].
        injection H1 as <- _. congruence.
    - eexists _, _, _. split; [reflexivity|]. split; split.
      + intros _. right. split; [reflexivity|]. right. exists rest.
        reflexivity.
      + intros _. split; reflexivity.
      + intros [_ H]. congruence.
      + intros [[H _] | (_ & c' & r' & e' & H & _)];
          [congruence | discriminate H]. }
  3: { (* HEALTH_CHECKING *)
    eexists _, _, _. split; [reflexivity|]. split; split.
    - intros _. left. reflexivity.
    - intros _. split; reflexivity.
    - intros [_ H]. congruence.
    - intros [[_ H] | (H & _)]; [congruence | discriminate H]. }
  all: eexists _, _, _; (split; [reflexivity|]); split; split;
    [ intros [_ H]; discriminate H
    | intros [H | (H & _)]; discriminate H
    | intros _; left; split; discriminate
    | intros _; split; [reflexivity | discriminate] ].
Qed.

(** ** Further properties of node.go *)

(** *** [state.String] *)

(** The name of a state is empty for [ERROR] and for no other state, and
    two different states never share a name: in an illegal-state message
    the current state can be read back from its name, [ERROR] showing as
    the empty string. *)
Theorem state_String_distinguishes_states :
  (forall s : state, state_String s = "" <-> s = ERROR) /\
  (forall a b : state, state_String a = state_String b -> a = b).
Proof.
  split.
  - intros s. split.
    + destruct s; simpl; intros H; first [reflexivity | discriminate H].
    + intros ->. reflexivity.
  - intros a b. destruct a, b; simpl; intros H;
      first [reflexivity | discriminate H].
Qed.

(** *** Defaults in [NewNode] *)

Lemma fill_defaults_again (K : Defaults) (options : option NodeOptions) :
  fill_defaults K (Some (fill_defaults K options)) = fill_defaults K options.
Proof.
  unfold fill_defaults. simpl.
  set (o := match options with
            | Some o => o
            | None => defaultNodeOptions K
            end).
  f_equal.
  - destruct (String.eqb_spec (RemoteAddress o) "") as [He|He].
    + destruct (String.eqb (defaultRemoteAddress K) ""); reflexivity.
    + apply String.eqb_neq in He. rewrite He. reflexivity.
  - destruct (Z.eqb_spec (MinConnections o) 0) as [He|He].
    + destruct (defaultMinConnections K =? 0); reflexivity.
    + apply Z.eqb_neq in He. rewrite He. reflexivity.
  - destruct (Z.eqb_spec (MaxConnections o) 0) as [He|He].
    + destruct (defaultMaxConnections K =? 0); reflexivity.
    + apply Z.eqb_neq in He. rewrite He. reflexivity.
  - destruct (Z.eqb_spec (IdleTimeout o) 0) as [He|He].
    + destruct (defaultIdleTimeout K =? 0); reflexivity.
    + apply Z.eqb_neq in He. rewrite He. reflexivity.
  - destruct (Z.eqb_spec (ConnectTimeout o) 0) as [He|He].
    + destruct (defaultConnectTimeout K =? 0); reflexivity.
    + apply Z.eqb_neq in He. rewrite He. reflexivity.
  - destruct (Z.eqb_spec (RequestTimeout o) 0) as [He|He].
    + destruct (defaultRequestTimeout K =? 0); reflexivity.
    + apply Z.eqb_neq in He. rewrite He. reflexivity.
Qed.

(** A nil [options] and a pointer to a zero-valued [NodeOptions] give the
    same result: both are replaced by the defaults field by field. *)
Theorem NewNode_nil_options_as_zero_options
    (K : Defaults) (W : Collaborators) :
  NewNode K W None = NewNode K W (Some zeroNodeOptions).
Proof.
  unfold NewNode.
  assert (H : fill_defaults K None = fill_defaults K (Some zeroNodeOptions)).
  { unfold fill_defaults, defaultNodeOptions. simpl. f_equal.
    - destruct (String.eqb (defaultRemoteAddress K) ""); reflexivity.
    - destruct (defaultMinConnections K =? 0); reflexivity.
    - destruct (defaultMaxConnections K =? 0); reflexivity.
    - destruct (defaultIdleTimeout K =? 0); reflexivity.
    - destruct (defaultConnectTimeout K =? 0); reflexivity.
    - destruct (defaultRequestTimeout K =? 0); reflexivity. }
  rewrite H. reflexivity.
Qed.

(** Options in which the defaults were already filled in, as [NewNode]
    leaves the options it was given, lead to the same result as the
    original options: filling in is idempotent. *)
Theorem NewNode_on_filled_options
    (K : Defaults) (W : Collaborators) (options : option NodeOptions) :
  NewNode K W (Some (fill_defaults K options)) = NewNode K W options.
Proof.
  unfold NewNode. rewrite fill_defaults_again. reflexivity.
Qed.

(** When every numeric option is non-zero and the address is not empty,
    the package defaults play no part: the node takes each field from the
    options, the pool gets [MinConnections] slots, and the address is the
    one the resolver gave for [RemoteAddress]. *)
Theorem NewNode_keeps_set_options
    (K : Defaults) (W : Collaborators) (o : NodeOptions) (a : string) :
  RemoteAddress o <> "" ->
  MinConnections o <> 0 ->
  MaxConnections o <> 0 ->
  IdleTimeout o <> 0 ->
  ConnectTimeout o <> 0 ->
  RequestTimeout o <> 0 ->
  resolveTCPAddr W (RemoteAddress o) = inl a ->
  NewNode K W (Some o) =
  inl {| addr := a;
         minConnections := MinConnections o;
         maxConnections := MaxConnections o;
         idleTimeout := IdleTimeout o;
         connectTimeout := ConnectTimeout o;
         requestTimeout := RequestTimeout o;
         healthCheckBuilder := HealthCheckBuilder o;
         available := replicate (Z.to_nat (MinConnections o)) None;
         currentNumConnections := 0;
         nstate := CREATED |}.
Proof.
  intros Ha Hmin Hmax Hi Hc Hr Hres.
  unfold NewNode, fill_defaults. simpl.
  apply String.eqb_neq in Ha. apply Z.eqb_neq in Hmin, Hmax, Hi, Hc, Hr.
  rewrite Ha, Hmin, Hmax, Hi, Hc, Hr, Hres. reflexivity.
Qed.

Lemma NewNode_keeps_set_options_witness :
  NewNode Scenario.defaults Scenario.reliable (Some Scenario.two_to_four)
  = inl Scenario.fresh.
Proof.
  apply (NewNode_keeps_set_options Scenario.defaults Scenario.reliable
           Scenario.two_to_four "10.0.0.1:8087").
  - discriminate.
  - discriminate.
  - discriminate.
  - discriminate.
  - discriminate.
  - discriminate.
  - reflexivity.
Defined.

(** When none of the numeric package defaults is zero, no node that
    [NewNode] returns has a zero size or a zero timeout, whatever the
    options were. *)
Theorem NewNode_never_leaves_a_zero
    (K : Defaults) (W : Collaborators) (options : option NodeOptions)
    (n : Node) :
  defaultMinConnections K <> 0 ->
  defaultMaxConnections K <> 0 ->
  defaultIdleTimeout K <> 0 ->
  defaultConnectTimeout K <> 0 ->
  defaultRequestTimeout K <> 0 ->
  NewNode K W options = inl n ->
  minConnections n <> 0 /\ maxConnections n <> 0 /\
  idleTimeout n <> 0 /\ connectTimeout n <> 0 /\ requestTimeout n <> 0.
Proof.
  intros Hmin Hmax Hi Hc Hr. unfold NewNode.
  destruct (resolveTCPAddr W _) as [a|e]; [|discriminate].
  intros H. injection H as <-. simpl.
  set (o := match options with
            | Some o => o
            | None => defaultNodeOptions K
            end).
  repeat split.
  - destruct (Z.eqb_spec (MinConnections o) 0); assumption.
  - destruct (Z.eqb_spec (MaxConnections o) 0); assumption.
  - destruct (Z.eqb_spec (IdleTimeout o) 0); assumption.
  - destruct (Z.eqb_spec (ConnectTimeout o) 0); assumption.
  - destruct (Z.eqb_spec (RequestTimeout o) 0); assumption.
Qed.

Lemma NewNode_never_leaves_a_zero_witness :
  minConnections Scenario.fresh <> 0 /\ maxConnections Scenario.fresh <> 0 /\
  idleTimeout Scenario.fresh <> 0 /\ connectTimeout Scenario.fresh <> 0 /\
  requestTimeout Scenario.fresh <> 0.
Proof.
  apply (NewNode_never_leaves_a_zero Scenario.defaults Scenario.reliable
           (Some Scenario.two_to_four) Scenario.fresh).
  - discriminate.
  - discriminate.
  - discriminate.
  - discriminate.
  - discriminate.
  - reflexivity.
Defined.

(** *** [stateCheck] *)

(** [stateCheck] never touches the node.  It returns nil exactly when the
    current state is in the allow-list, and otherwise the illegal-state
    error made of the allow-list and the current state; with an empty
    allow-list it always fails. *)
Theorem stateCheck_allows_exactly_the_list
    (allowed : list state) (w : World) :
  exists r : option error,
    stateCheck allowed w = (Returns r, w) /\
    (r = None <-> In (nstate (node w)) allowed) /\
    (r <> None -> r = Some (IllegalState allowed (nstate (node w)))).
Proof.
  rewrite stateCheck_runs. eexists. split; [reflexivity|].
  destruct (existsb (state_eqb (nstate (node w))) allowed) eqn:H.
  - split; [|intros Hn; exfalso; apply Hn; reflexivity].
    split; [intros _|reflexivity].
    apply existsb_exists in H as (s & Hin & Heq).
    apply state_eqb_eq in Heq. subst s. exact Hin.
  - split; [|reflexivity].
    split; [discriminate|]. intros Hin. exfalso.
    assert (Ht : existsb (state_eqb (nstate (node w))) allowed = true).
    { apply existsb_exists. exists (nstate (node w)).
      split; [exact Hin | apply state_eqb_refl]. }
    rewrite Ht in H. discriminate H.
Qed.

(** *** [createNewConnection] *)

Lemma count_calls_snoc (p : call -> bool) (l : list call) (c : call) :
  count_calls p (l ++ [c]) = (count_calls p l + (if p c then 1 else 0))%nat.
Proof.
  unfold count_calls. rewrite List.filter_app, length_app. simpl.
  destruct (p c); reflexivity.
Qed.

(** [createNewConnection] always returns, after exactly one call of
    [newConnection] and one [Build] if and only if a health-check builder
    is configured.  Either it returns a nil error together with a non-nil
    connection, and the live count has been incremented (with wrap-around)
    and nothing else changed; or it returns an error and the node is
    untouched.  The pool is never touched. *)
Theorem createNewConnection_counts_only_successes
    (W : Collaborators) (w : World) :
  exists (p : option nat) (err : option error) (w' : World),
    createNewConnection W w = (Returns (p, err), w') /\
    ((err = None /\
      exists c : nat, p = Some c /\
        node w' = with_count (wrap16 (currentNumConnections (node w) + 1))
                    (node w)) \/
     (err <> None /\ node w' = node w)) /\
    count_calls is_dial (calls w') = S (count_calls is_dial (calls w)) /\
    count_calls is_build (calls w') =
      (count_calls is_build (calls w)
       + match healthCheckBuilder (node w) with
         | Some _ => 1
         | None => 0
         end)%nat.
Proof.
  destruct w as [n t].
  unfold createNewConnection, bind, get, dial, connect, record, update, ret.
  simpl.
  destruct (healthCheckBuilder n) as [b|]; simpl;
    (destruct (newConnection W _ _) as [c|e]; simpl;
     [ destruct (conn_connect W _ c) as [e|]; simpl | ]);
    eexists _, _, _; (split; [reflexivity|]); simpl;
    rewrite ?count_calls_snoc; simpl;
    (split; [ first [ left; split; [reflexivity|]; exists c;
                      split; reflexivity
                    | right; split; [discriminate | reflexivity] ]
            | split; lia ]).
Qed.

(** *** [Start] *)

Section StartLog.

Variable W : Collaborators.

Lemma warmFillOnce_dials_once (w : World) :
  state_ltb (nstate (node w)) SHUTTING_DOWN = true ->
  exists w', warmFillOnce W w = (Returns tt, w') /\
    nstate (node w') = nstate (node w) /\
    count_calls is_dial (calls w') = S (count_calls is_dial (calls w)).
Proof.
  intros Hs. destruct w as [n t].
  unfold warmFillOnce, createNewConnection, bind, get, dial, connect, record,
    update, ret; simpl.
  destruct (healthCheckBuilder n) as [b|]; simpl;
    (destruct (newConnection W _ _) as [c|e]; simpl;
     [ destruct (conn_connect W _ c) as [e|]; simpl
     | ]);
    unfold returnConnectionToPool, bind, get, notInFlight, resetBuffer,
      record, update; simpl in *; try rewrite Hs; simpl;
    eexists; (split; [reflexivity|]); simpl;
    rewrite ?count_calls_snoc; simpl; (split; [reflexivity | lia]).
Qed.

Lemma warmFill_dials (turns : nat) (w : World) :
  state_ltb (nstate (node w)) SHUTTING_DOWN = true ->
  exists w', warmFill W turns w = (Returns tt, w') /\
    nstate (node w') = nstate (node w) /\
    count_calls is_dial (calls w')
      = (count_calls is_dial (calls w) + turns)%nat.
Proof.
  revert w. induction turns as [|turns IH]; intros w Hs.
  - exists w. split; [reflexivity|]. split; [reflexivity | lia].
  - simpl. unfold bind.
    destruct (warmFillOnce_dials_once w Hs) as (w1 & -> & Hs1 & Hd1).
    destruct (IH w1) as (w' & -> & Hs' & Hd').
    { rewrite Hs1. exact Hs. }
    exists w'. split; [reflexivity|].
    split; [congruence | lia].
Qed.

End StartLog.

(** On a [CREATED] node [Start] dials exactly [minConnections] times,
    whatever the dials and the connects answer, and returns nil. *)
Theorem Start_dials_minConnections_times (W : Collaborators) (w : World) :
  nstate (node w) = CREATED ->
  exists w',
    Start W w = (Returns None, w') /\
    count_calls is_dial (calls w')
      = (count_calls is_dial (calls w)
         + Z.to_nat (minConnections (node w)))%nat.
Proof.
  intros Hs. unfold Start. unfold bind at 1. rewrite stateCheck_runs, Hs.
  simpl. unfold bind, get. simpl.
  destruct (warmFill_dials W (Z.to_nat (minConnections (node w))) w)
    as (w1 & -> & _ & Hd).
  { rewrite Hs. reflexivity. }
  unfold setState, update, ret. simpl.
  eexists. split; [reflexivity|]. simpl. exact Hd.
Qed.

Lemma Start_dials_minConnections_times_witness :
  exists w',
    Start Scenario.reliable (Scenario.at_rest Scenario.fresh)
      = (Returns None, w') /\
    count_calls is_dial (calls w') = 2%nat.
Proof.
  apply (Start_dials_minConnections_times Scenario.reliable
           (Scenario.at_rest Scenario.fresh)).
  reflexivity.
Defined.

Lemma live_entries_app (l1 l2 : list (option nat)) :
  live_entries (l1 ++ l2) = (live_entries l1 + live_entries l2)%nat.
Proof.
  unfold live_entries. rewrite List.filter_app, length_app. reflexivity.
Qed.

Lemma live_entries_nils (m : nat) : live_entries (replicate m None) = 0%nat.
Proof. induction m as [|m IH]; [reflexivity | exact IH]. Qed.

Lemma live_entries_all (cs : list nat) :
  live_entries (map Some cs) = length cs.
Proof.
  unfold live_entries. induction cs as [|c cs IH]; simpl; [reflexivity|].
  rewrite IH. reflexivity.
Qed.

(** After [NewNode] and [Start], with [minConnections] a [uint16], the
    live count is the number of pool slots that hold a connection (the nil
    slots that [NewNode] made are not counted), and it is at most
    [minConnections]. *)
Theorem Start_counts_the_pooled_connections
    (K : Defaults) (W : Collaborators) (options : option NodeOptions)
    (n : Node) (t : list call) :
  NewNode K W options = inl n ->
  minConnections n <= 65535 ->
  exists w',
    Start W {| node := n; calls := t |} = (Returns None, w') /\
    currentNumConnections (node w')
      = Z.of_nat (live_entries (available (node w'))) /\
    currentNumConnections (node w') <= Z.max 0 (minConnections n).
Proof.
  intros HN Hm. destruct (NewNode_fields K W options n HN) as (Ha & Hc & Hs).
  destruct (Start_runs W {| node := n; calls := t |} Hs)
    as (w' & cs & HS & Hlen & Hn).
  simpl in *. exists w'. split; [exact HS|].
  rewrite Hn. simpl. rewrite Hc, Ha.
  rewrite count_up_exact by lia.
  rewrite live_entries_app, live_entries_nils, live_entries_all. lia.
Qed.

Lemma Start_counts_the_pooled_connections_witness :
  exists w',
    Start Scenario.reliable (Scenario.at_rest Scenario.fresh)
      = (Returns None, w') /\
    currentNumConnections (node w')
      = Z.of_nat (live_entries (available (node w'))) /\
    currentNumConnections (node w') <= Z.max 0 2.
Proof.
  apply (Start_counts_the_pooled_connections Scenario.defaults
           Scenario.reliable (Some Scenario.two_to_four) Scenario.fresh []).
  - reflexivity.
  - simpl. lia.
Defined.

(** [Start] cannot be repeated: after a [Start] that passed its guard, a
    second [Start] returns the illegal-state error and changes nothing. *)
Theorem Start_twice_is_refused
    (W : Collaborators) (w w1 : World) (r : outcome (option error)) :
  nstate (node w) = CREATED ->
  Start W w = (r, w1) ->
  Start W w1 = (Returns (Some (IllegalState [CREATED] RUNNING)), w1).
Proof.
  intros Hs HS. destruct (Start_runs W w Hs) as (w' & cs & HS' & _ & Hn).
  rewrite HS' in HS. injection HS as _ <-.
  unfold Start. unfold bind at 1. rewrite stateCheck_runs, Hn. reflexivity.
Qed.

Lemma Start_twice_is_refused_witness :
  exists w1,
    Start Scenario.reliable (Scenario.at_rest Scenario.fresh)
      = (Returns None, w1) /\
    Start Scenario.reliable w1
      = (Returns (Some (IllegalState [CREATED] RUNNING)), w1).
Proof.
  eexists. split; [reflexivity|].
  apply (Start_twice_is_refused Scenario.reliable
           (Scenario.at_rest Scenario.fresh) _ (Returns None)).
  - reflexivity.
  - reflexivity.
Defined.

(** *** The states past the drain *)

(** In [SHUTTING_DOWN], [SHUTDOWN] and [ERROR] the node is out of reach of
    its public operations: [Start], [Stop] and [Execute] each return the
    illegal-state error of their own allow-list and leave the node and the
    collaborators untouched.  A stopped node cannot be restarted and [Stop]
    cannot be repeated. *)
Theorem stopped_node_refuses_everything
    (W : Collaborators) (cmd : Command) (w : World) :
  nstate (node w) = SHUTTING_DOWN \/ nstate (node w) = SHUTDOWN \/
  nstate (node w) = ERROR ->
  Start W w
    = (Returns (Some (IllegalState [CREATED] (nstate (node w)))), w) /\
  Stop W w
    = (Returns (Some (IllegalState [CREATED; HEALTH_CHECKING]
                        (nstate (node w)))), w) /\
  Execute W cmd w
    = (Returns (false,
                Some (IllegalState [RUNNING; HEALTH_CHECKING]
                        (nstate (node w)))), w).
Proof.
  intros Hs. unfold Start, Stop. rewrite Execute_runs.
  unfold bind. rewrite !stateCheck_runs.
  destruct Hs as [-> | [-> | ->]]; repeat split; reflexivity.
Qed.

Lemma stopped_node_refuses_everything_witness :
  Start Scenario.reliable
    (Scenario.at_rest (Scenario.a_node [None; None] 0 SHUTDOWN))
  = (Returns (Some (IllegalState [CREATED] SHUTDOWN)),
     Scenario.at_rest (Scenario.a_node [None; None] 0 SHUTDOWN)).
Proof.
  apply (stopped_node_refuses_everything Scenario.reliable Scenario.ping
           (Scenario.at_rest (Scenario.a_node [None; None] 0 SHUTDOWN))).
  right. left. reflexivity.
Defined.

(** *** What [Execute] touches *)

Lemma with_available_same (n : Node) : with_available (available n) n = n.
Proof. destruct n; reflexivity. Qed.

(** [Execute] changes nothing of the node but the pool, and the pool only
    by taking its head.  Either the world is left exactly as it was, or the
    node was [RUNNING], the head slot of the pool has been removed, and the
    command has been run once on that slot's connection if it held one (a
    nil slot is dropped without any call).  In particular nothing at all
    happens unless the node is [RUNNING]. *)
Theorem Execute_only_takes_the_head
    (W : Collaborators) (cmd : Command) (w : World) :
  exists (r : bool * option error) (w' : World),
    Execute W cmd w = (Returns r, w') /\
    node w' = with_available (available (node w')) (node w) /\
    (w' = w \/
     exists (p : option nat) (rest : list (option nat)),
       nstate (node w) = RUNNING /\
       available (node w) = p :: rest /\
       available (node w') = rest /\
       calls w' = calls w ++ match p with
                             | Some c => [CallExecute c cmd]
                             | None => []
                             end).
Proof.
  rewrite Execute_runs.
  destruct (nstate (node w)) eqn:Hs;
    try (eexists _, w; split; [reflexivity|];
         split; [symmetry; apply with_available_same | left; reflexivity]).
  destruct (available (node w)) as [|[c|] rest] eqn:Ha.
  - eexists _, w. split; [reflexivity|].
    split; [symmetry; apply with_available_same | left; reflexivity].
  - eexists _, _. split; [reflexivity|]. simpl.
    split; [reflexivity|]. right. exists (Some c), rest. auto.
  - eexists _, _. split; [reflexivity|]. simpl.
    split; [reflexivity|]. right. exists None, rest.
    rewrite app_nil_r. auto.
Qed.

(** *** The pool as a queue *)

Lemma checkouts_runs (k : nat) :
  forall w : World,
    checkouts k w =
    (Returns (take k (available (node w))
              ++ replicate (k - length (available (node w))) None),
     {| node := with_available (drop k (available (node w))) (node w);
        calls := calls w |}).
Proof.
  induction k as [|k IH]; intros w.
  - simpl. unfold ret. rewrite drop_0, with_available_same.
    destruct w; reflexivity.
  - simpl checkouts. unfold bind at 1. rewrite getAvailableConnection_runs.
    destruct (available (node w)) as [|c rest] eqn:Ha.
    + unfold bind at 1. rewrite IH, Ha. simpl.
      rewrite take_nil, drop_nil, Nat.sub_0_r. reflexivity.
    + unfold bind at 1. rewrite IH. reflexivity.
Qed.

(** The pool is a first-in first-out queue under checkout: [k] checkouts
    in a row return the first [k] slots of the pool in their order, and
    nil for every checkout past the end of the pool; they leave the rest of
    the pool, call no collaborator and do not change the live count. *)
Theorem checkouts_first_in_first_out (k : nat) (w : World) :
  exists w' : World,
    checkouts k w =
      (Returns (take k (available (node w))
                ++ replicate (k - length (available (node w))) None), w') /\
    available (node w') = drop k (available (node w)) /\
    currentNumConnections (node w') = currentNumConnections (node w) /\
    nstate (node w') = nstate (node w) /\
    calls w' = calls w.
Proof.
  rewrite checkouts_runs. eexists. split; [reflexivity|]. simpl. auto.
Qed.

(** Checkin and checkout compose to a queue: a connection returned to a
    node whose state is below [SHUTTING_DOWN] comes out again after every
    slot that was pooled before it, and then the pool is empty. *)
Theorem checkin_then_checkouts
    (W : Collaborators) (c : nat) (shouldLock : bool) (w : World) :
  state_ltb (nstate (node w)) SHUTTING_DOWN = true ->
  (let* _ := returnConnectionToPool W (Some c) shouldLock in
   checkouts (S (length (available (node w))))) w
  = (Returns (available (node w) ++ [Some c]),
     {| node := with_available [] (node w);
        calls := calls w ++ [CallNotInFlight c; CallResetBuffer c] |}).
Proof.
  intros Hs. unfold bind.
  rewrite (returnConnectionToPool_pools W c shouldLock w Hs).
  rewrite checkouts_runs. simpl available. simpl calls.
  replace (S (length (available (node w))))
    with (length (available (node w) ++ [Some c]))
    by (rewrite length_app; simpl; lia).
  rewrite firstn_all, skipn_all, Nat.sub_diag. simpl.
  rewrite app_nil_r. reflexivity.
Qed.

Lemma checkin_then_checkouts_witness :
  (let* _ := returnConnectionToPool Scenario.reliable (Some 7%nat) true in
   checkouts 3)
    (Scenario.at_rest (Scenario.a_node [Some 0%nat; None] 3 RUNNING))
  = (Returns [Some 0%nat; None; Some 7%nat],
     {| node := Scenario.a_node [] 3 RUNNING;
        calls := [CallNotInFlight 7%nat; CallResetBuffer 7%nat] |}).
Proof.
  apply (checkin_then_checkouts Scenario.reliable 7%nat true
           (Scenario.at_rest (Scenario.a_node [Some 0%nat; None] 3 RUNNING))).
  reflexivity.
Defined.

Lemma returnConnectionToPool_closes_witness :
  returnConnectionToPool Scenario.close_of_0_fails (Some 0%nat) true
    (Scenario.at_rest (Scenario.a_node [Some 1%nat] 0 SHUTTING_DOWN))
  = (Returns tt,
     {| node := Scenario.a_node [Some 1%nat] 65535 SHUTTING_DOWN;
        calls := [CallClose 0%nat] |}).
Proof.
  apply (returnConnectionToPool_closes Scenario.close_of_0_fails 0%nat true
           (Scenario.at_rest (Scenario.a_node [Some 1%nat] 0 SHUTTING_DOWN))).
  left. reflexivity.
Defined.

(** *** The outcomes of [shutdown] *)

Lemma count_down_exact (k : Z) (m : nat) :
  0 <= k < 65536 -> Z.of_nat m <= k -> count_down k m = k - Z.of_nat m.
Proof.
  intros Hk. induction m as [|m IH]; intros Hm.
  - unfold count_down. simpl. lia.
  - unfold count_down in *. simpl. rewrite IH by lia.
    unfold wrap16. rewrite Z.mod_small; lia.
Qed.

Lemma last_answer_snoc (W : Collaborators) (cs : list nat) (c : nat) :
  forall (t : list call) (err : option error),
    last_answer W t (cs ++ [c]) err
    = conn_close W (t ++ map CallClose cs) c.
Proof.
  induction cs as [|a cs IH]; intros t err; simpl.
  - rewrite app_nil_r. reflexivity.
  - rewrite IH, <- app_assoc. reflexivity.
Qed.

(** [shutdown] on a pool of connections, by cases on the last close's
    answer and on the live count that is left. *)
Lemma shutdown_runs (W : Collaborators) (cs : list nat) (w : World) :
  available (node w) = map Some cs ->
  shutdown W w =
  match last_answer W (calls w) cs None with
  | Some e =>
      (Returns (Some e),
       {| node :=
            with_state ERROR
              (with_available (replicate (length cs) None)
                 (with_count
                    (count_down (currentNumConnections (node w)) (length cs))
                    (node w)));
          calls := calls w ++ map CallClose cs |})
  | None =>
      if count_down (currentNumConnections (node w)) (length cs) =? 0
      then
        (Returns None,
         {| node :=
              with_state SHUTDOWN
                (with_available (replicate (length cs) None)
                   (with_count
                      (count_down (currentNumConnections (node w))
                         (length cs))
                      (node w)));
            calls := calls w ++ map CallClose cs |})
      else
        (Panics
           (still_in_use
              (with_available (replicate (length cs) None)
                 (with_count
                    (count_down (currentNumConnections (node w))
                       (length cs))
                    (node w)))),
         {| node :=
              with_available (replicate (length cs) None)
                (with_count
                   (count_down (currentNumConnections (node w)) (length cs))
                   (node w));
            calls := calls w ++ map CallClose cs |})
  end.
Proof.
  intros Ha. unfold shutdown. unfold bind at 1. unfold get at 1.
  rewrite Ha. unfold bind at 1. rewrite drain_runs.
  rewrite Ha. rewrite <- (length_map Some cs) at 1.
  rewrite nil_out_all, length_map.
  destruct (last_answer W (calls w) cs None) as [e|].
  - reflexivity.
  - unfold bind, get, setState, update, ret, panic. simpl.
    destruct (count_down _ _ =? 0); reflexivity.
Qed.

(** When connections are still checked out (the live count, a [uint16],
    is above the number of idle connections) and no close fails, [Stop]
    closes every idle connection and then panics.  The node is left in
    [SHUTTING_DOWN] with the number of outstanding connections as its live
    count, and the panic value is the text
    [[Node] (<address>|<outstanding>); Connections still in use.], the
    node printed as it is at that moment. *)
Theorem Stop_panics_when_connections_are_out
    (W : Collaborators) (w : World) (cs : list nat) :
  nstate (node w) = CREATED \/ nstate (node w) = HEALTH_CHECKING ->
  available (node w) = map Some cs ->
  Z.of_nat (length cs) < currentNumConnections (node w) < 65536 ->
  (forall (c : nat) (t : list call), In c cs -> conn_close W t c = None) ->
  Stop W w =
  (Panics
     ("[Node] ("
      +:+ (addr (node w) +:+ "|"
           +:+ decimal (currentNumConnections (node w)
                        - Z.of_nat (length cs)))
      +:+ "); Connections still in use."),
   {| node :=
        with_state SHUTTING_DOWN
          (with_available (replicate (length cs) None)
             (with_count
                (currentNumConnections (node w) - Z.of_nat (length cs))
                (node w)));
      calls := calls w ++ map CallClose cs |}).
Proof.
  intros Hs Ha Hk Hok. unfold Stop. unfold bind at 1.
  rewrite stateCheck_runs.
  assert (Hg : existsb (state_eqb (nstate (node w)))
                 [CREATED; HEALTH_CHECKING] = true).
  { destruct Hs as [-> | ->]; reflexivity. }
  rewrite Hg. unfold bind at 1. unfold setState, update.
  unfold bind at 1.
  rewrite (shutdown_runs W cs) by exact Ha.
  simpl calls. rewrite last_answer_nil by exact Hok.
  simpl. rewrite count_down_exact by lia.
  destruct (Z.eqb_spec
              (currentNumConnections (node w) - Z.of_nat (length cs)) 0)
    as [He|He]; [lia|].
  reflexivity.
Qed.

Lemma Stop_panics_when_connections_are_out_witness :
  Stop Scenario.reliable
    (Scenario.at_rest (Scenario.a_node [Some 0%nat] 2 HEALTH_CHECKING))
  = (Panics "[Node] (10.0.0.1:8087|1); Connections still in use.",
     {| node := Scenario.a_node [None] 1 SHUTTING_DOWN;
        calls := [CallClose 0%nat] |}).
Proof.
  apply (Stop_panics_when_connections_are_out Scenario.reliable
           (Scenario.at_rest (Scenario.a_node [Some 0%nat] 2 HEALTH_CHECKING))
           [0%nat]).
  - right. reflexivity.
  - reflexivity.
  - simpl. lia.
  - intros c t _. reflexivity.
Defined.

(** When the close of the LAST idle connection returns an error,
    [shutdown] returns that error and sets the state to [ERROR], after
    every idle connection was closed, every slot set to nil and the live
    count decremented once per slot. *)
Theorem shutdown_returns_the_last_close_error
    (W : Collaborators) (w : World) (cs : list nat) (c : nat) (e : error) :
  available (node w) = map Some (cs ++ [c]) ->
  conn_close W (calls w ++ map CallClose cs) c = Some e ->
  shutdown W w =
  (Returns (Some e),
   {| node :=
        with_state ERROR
          (with_available (replicate (S (length cs)) None)
             (with_count
                (wrap16 (currentNumConnections (node w)
                         - Z.of_nat (S (length cs))))
                (node w)));
      calls := calls w ++ map CallClose (cs ++ [c]) |}).
Proof.
  intros Ha He. rewrite (shutdown_runs W (cs ++ [c])) by exact Ha.
  rewrite last_answer_snoc, He.
  replace (length (cs ++ [c])) with (S (length cs))
    by (rewrite length_app; simpl; lia).
  rewrite count_down_wraps. reflexivity.
Qed.

Lemma shutdown_returns_the_last_close_error_witness :
  shutdown Scenario.close_of_0_fails
    (Scenario.at_rest (Scenario.a_node [Some 1%nat; Some 0%nat] 2
                         SHUTTING_DOWN))
  = (Returns (Some (External "close 0")),
     {| node := Scenario.a_node [None; None] 0 ERROR;
        calls := [CallClose 1%nat; CallClose 0%nat] |}).
Proof.
  apply (shutdown_returns_the_last_close_error Scenario.close_of_0_fails
           (Scenario.at_rest (Scenario.a_node [Some 1%nat; Some 0%nat] 2
                                SHUTTING_DOWN))
           [1%nat] 0%nat (External "close 0")).
  - reflexivity.
  - reflexivity.
Defined.

(** *** Success of [Execute] and exhaustion of the pool *)

(** [Execute] returns [(true, nil)] exactly when the node is [RUNNING],
    the head slot of the pool holds a connection, and running the command
    on that connection returns nil. *)
Theorem Execute_succeeds_exactly_when
    (W : Collaborators) (cmd : Command) (w : World) :
  (exists w' : World, Execute W cmd w = (Returns (true, None), w')) <->
  (nstate (node w) = RUNNING /\
   exists (c : nat) (rest : list (option nat)),
     available (node w) = Some c :: rest /\
     conn_execute W (calls w) c cmd = None).
Proof.
  rewrite Execute_runs. split.
  - intros (w' & H).
    destruct (nstate (node w)); try discriminate H.
    destruct (available (node w)) as [|[c|] rest]; try discriminate H.
    destruct (conn_execute W (calls w) c cmd) eqn:He; try discriminate H.
    split; [reflexivity|]. exists c, rest. split; [reflexivity | exact He].
  - intros (Hs & c & rest & Ha & He). rewrite Hs, Ha, He.
    eexists. reflexivity.
Qed.

(** Every connection serves at most one command.  On a [RUNNING] node a
    run of [Execute] calls returns one result per command, consumes one
    pool slot per call from the head while there are slots, never executes
    more commands than there were connections in the slots it consumed,
    and leaves the node [RUNNING] with its live count unchanged; once as
    many calls were made as the pool had slots, the pool is empty. *)
Theorem ExecuteEach_uses_each_connection_once
    (W : Collaborators) (cmds : list Command) :
  forall w : World,
    nstate (node w) = RUNNING ->
    exists (rs : list (bool * option error)) (w' : World),
      ExecuteEach W cmds w = (Returns rs, w') /\
      length rs = length cmds /\
      available (node w') = drop (length cmds) (available (node w)) /\
      (executed_count rs
       <= live_entries (take (length cmds) (available (node w))))%nat /\
      nstate (node w') = RUNNING /\
      currentNumConnections (node w') = currentNumConnections (node w).
Proof.
  induction cmds as [|cmd cmds IH]; intros w Hs.
  - exists [], w. simpl. unfold ret. rewrite drop_0.
    repeat split; [reflexivity | exact Hs].
  - simpl ExecuteEach. unfold bind at 1. rewrite Execute_runs, Hs.
    destruct (available (node w)) as [|[c|] rest] eqn:Ha.
    + unfold bind.
      destruct (IH w Hs) as (rs & w' & -> & Hlen & Hav & Hex & Hs' & Hk).
      rewrite Ha in Hav, Hex. rewrite take_nil in Hex. rewrite drop_nil in Hav.
      eexists _, w'. split; [reflexivity|]. simpl.
      unfold executed_count in *. simpl.
      repeat split; [lia | exact Hav | exact Hex | exact Hs' | exact Hk].
    + set (w1 := {| node := with_available rest (node w);
                    calls := calls w ++ [CallExecute c cmd] |}).
      unfold bind. fold w1.
      destruct (IH w1 Hs) as (rs & w' & -> & Hlen & Hav & Hex & Hs' & Hk).
      simpl in Hav, Hex, Hk.
      eexists _, w'. split; [reflexivity|]. simpl.
      unfold executed_count, live_entries in *. simpl.
      repeat split; [lia | exact Hav | | exact Hs' | exact Hk].
      destruct (conn_execute W (calls w) c cmd); simpl; lia.
    + set (w1 := {| node := with_available rest (node w);
                    calls := calls w |}).
      unfold bind. fold w1.
      destruct (IH w1 Hs) as (rs & w' & -> & Hlen & Hav & Hex & Hs' & Hk).
      simpl in Hav, Hex, Hk.
      eexists _, w'. split; [reflexivity|]. simpl.
      unfold executed_count, live_entries in *. simpl.
      repeat split; [lia | exact Hav | exact Hex | exact Hs' | exact Hk].
Qed.

Lemma ExecuteEach_uses_each_connection_once_witness :
  exists (rs : list (bool * option error)) (w' : World),
    ExecuteEach Scenario.reliable [Scenario.ping; Scenario.ping; Scenario.ping]
      (Scenario.at_rest (Scenario.a_node [None; Some 0%nat] 1 RUNNING))
      = (Returns rs, w') /\
    length rs = 3%nat /\
    available (node w') = [] /\
    (executed_count rs <= 1)%nat /\
    nstate (node w') = RUNNING /\
    currentNumConnections (node w') = 1.
Proof.
  apply (ExecuteEach_uses_each_connection_once Scenario.reliable
           [Scenario.ping; Scenario.ping; Scenario.ping]
           (Scenario.at_rest (Scenario.a_node [None; Some 0%nat] 1 RUNNING))).
  reflexivity.
Defined.
